(** * dlopt.optimization: [Problem] validation and the [Solution] value type

    A shallow embedding of [src/dlopt/optimization.py].

    - Python dicts keyed by names are [gmap string _]; none of the
      properties below depends on the iteration order of a dict.
    - Directions and fitness values are integers ([Z]).
    - A raised exception is the [Raise] outcome of the [result] type, tagged
      with the kind of exception; a method that mutates [self] returns its
      outcome together with the object after the call.
    - The [targets] dict handed to a [Solution] is only read by the class
      and is treated as read-only. *)

From stdpp Require Import gmap strings list fin_maps fin_sets.
From Stdlib Require Import ZArith Lia.

Local Open Scope Z_scope.

(** ** Outcomes of a call *)

(** The exceptions of the module.  All but [KeyError] are plain
    [Exception]s in the source and are told apart by their message. *)
Inductive exn : Set :=
  | InvalidTarget    (* "Target must be 1 or -1" *)
  | TargetMismatch   (* "'target' does not match" *)
  | NotComparable    (* "Solutions are not comparables" *)
  | KeyError.        (* a failed dict lookup d[k] *)

Inductive result (A : Type) : Type :=
  | Ok (a : A)
  | Raise (e : exn).
Arguments Ok {A} a.
Arguments Raise {A} e.

#[global] Instance result_ret : MRet result := λ A a, Ok a.
#[global] Instance result_bind : MBind result := λ A B f m,
  match m with
  | Ok a => f a
  | Raise e => Raise e
  end.

(** [d[k]] on a dict. *)
Definition subscript {V} (d : gmap string V) (k : string) : result V :=
  match d !! k with
  | Some v => Ok v
  | None => Raise KeyError
  end.

(** [for x in xs: body(x)] where the body may raise. *)
Fixpoint for_each {A} (body : A → result unit) (xs : list A) : result unit :=
  match xs with
  | [] => Ok ()
  | x :: xs' => body x ≫= λ _, for_each body xs'
  end.

(** The keys of a dict, as [for k in d] visits them. *)
Definition keys {V} (d : gmap string V) : list string := (map_to_list d).*1.

(** ** class Problem *)
Module Problem.

Record t (Data Kwargs : Type) : Type := mk {
  targets : gmap string Z;
  data : Data;
  kwargs : Kwargs;
  verbose : Z
}.
Arguments mk {Data Kwargs}.
Arguments targets {Data Kwargs}.
Arguments data {Data Kwargs}.
Arguments kwargs {Data Kwargs}.
Arguments verbose {Data Kwargs}.

(** One round of the validation loop of the constructor. *)
Definition check_target (targets : gmap string Z) (name : string) : result unit :=
  d ← subscript targets name;
  if bool_decide (Z.abs d ≠ 1) then Raise InvalidTarget else Ok ().

Definition __init__ {Data Kwargs} (data : Data) (targets : gmap string Z)
    (verbose : Z) (kwargs : Kwargs) : result (t Data Kwargs) :=
  _ ← for_each (check_target targets) (keys targets);
  Ok (mk targets data kwargs verbose).

End Problem.

(** ** class Solution *)
Module Solution.

(** [encoded] maps a variable name to [None] (Python's [None]) or to an
    encoded value. *)
Record t : Type := mk {
  targets : gmap string Z;
  fitness : gmap string Z;
  encoded : gmap string (option Z)
}.

Definition with_fitness (self : t) (f : gmap string Z) : t :=
  mk (targets self) f (encoded self).

Definition with_encoded (self : t) (e : gmap string (option Z)) : t :=
  mk (targets self) (fitness self) e.

Definition __init__ (targets : gmap string Z) (variable_names : list string) : t :=
  foldl (λ self variable_name,
           with_encoded self (<[variable_name := None]> (encoded self)))
        (mk targets ∅ ∅) variable_names.

Definition get_encoded (self : t) (variable_name : string) : result (option Z) :=
  subscript (encoded self) variable_name.

Definition set_encoded (self : t) (variable_name : string) (value : option Z) : t :=
  with_encoded self (<[variable_name := value]> (encoded self)).

Definition get_fitness (self : t) (target : string) : result Z :=
  if bool_decide (target ∈ dom (targets self))
  then subscript (fitness self) target
  else Raise TargetMismatch.

(** Returns the outcome of the call and the object after it. *)
Definition set_fitness (self : t) (target : string) (value : Z) : result unit * t :=
  if bool_decide (target ∈ dom (targets self))
  then (Ok (), with_fitness self (<[target := value]> (fitness self)))
  else (Raise TargetMismatch, self).

(** The assignment [self.fitness = {}] sits inside the loop over
    [self.targets]: it runs once per declared target. *)
Definition clear_fitness (self : t) : t :=
  foldl (λ self _, with_fitness self ∅) self (keys (targets self)).

Definition is_evaluated (self : t) : bool :=
  if bool_decide (size (fitness self) < size (targets self))%nat then false
  else forallb (λ target, bool_decide (target ∈ dom (fitness self)))
               (keys (targets self)).

(** [set(d.items())] *)
Definition items (d : gmap string Z) : gset (string * Z) :=
  list_to_set (map_to_list d).

(** One round of the loop that fills [differences]. *)
Definition difference (self solution : t) (target : string) : result Z :=
  fa ← subscript (fitness self) target;
  da ← subscript (targets self) target;
  fb ← subscript (fitness solution) target;
  db ← subscript (targets solution) target;
  Ok (fa * da - fb * db).

(** [sum(differences > 0)] and [sum(differences < 0)] *)
Definition count_positive (differences : list Z) : Z :=
  Z.of_nat (length (filter (λ d, 0 < d) differences)).

Definition count_negative (differences : list Z) : Z :=
  Z.of_nat (length (filter (λ d, d < 0) differences)).

Definition comparedTo (self solution : t) : result Z :=
  if bool_decide (size (items (targets self) ∩ items (targets solution))
                  ≠ size (targets self))
  then Raise NotComparable
  else if bool_decide (size (fitness self) ≠ size (fitness solution))
  then Raise NotComparable
  else
    differences ← mapM (difference self solution) (keys (fitness self));
    let a_up := count_positive differences in
    let b_up := count_negative differences in
    Ok (a_up - b_up).

Definition __eq__ (self solution : t) : result bool :=
  c ← comparedTo self solution;
  if bool_decide (c = 0) then Ok true else Ok false.

Definition __lt__ (self solution : t) : result bool :=
  c ← comparedTo self solution;
  if bool_decide (c < 0) then Ok true else Ok false.

Definition __gt__ (self solution : t) : result bool :=
  c ← comparedTo self solution;
  if bool_decide (c > 0) then Ok true else Ok false.

Definition __le__ (self solution : t) : result bool :=
  c ← comparedTo self solution;
  if bool_decide (c <= 0) then Ok true else Ok false.

Definition __ge__ (self solution : t) : result bool :=
  c ← comparedTo self solution;
  if bool_decide (c >= 0) then Ok true else Ok false.

(** The objects a program can hold: built by the constructor and changed
    through the methods of the class only. *)
Inductive reachable : t → Prop :=
  | reachable_init targets variable_names :
      reachable (__init__ targets variable_names)
  | reachable_set_encoded self variable_name value :
      reachable self → reachable (set_encoded self variable_name value)
  | reachable_set_fitness self target value :
      reachable self → reachable (set_fitness self target value).2
  | reachable_clear_fitness self :
      reachable self → reachable (clear_fitness self).

(** A run of [set_fitness] calls, one per pair of the list; a call that
    raises leaves the object as it was and the run goes on. *)
Definition set_fitness_calls (self : t) (calls : list (string * Z)) : t :=
  foldl (λ self call, (set_fitness self call.1 call.2).2) self calls.

End Solution.

(** ** The comparison, as the specification words it

    The signed difference on one target, with the direction shared by the
    two objects, and the two counts over the declared targets.  A lookup
    that finds nothing reads 0 here; the statements below use these
    definitions where every lookup finds a value. *)

Definition signed_difference (a b : Solution.t) (target : string) : Z :=
  (Solution.fitness a !!! target) * (Solution.targets a !!! target)
  - (Solution.fitness b !!! target) * (Solution.targets a !!! target).

Definition a_up (a b : Solution.t) : Z :=
  Z.of_nat (length (filter (λ target, 0 < signed_difference a b target)
                           (keys (Solution.targets a)))).

Definition b_up (a b : Solution.t) : Z :=
  Z.of_nat (length (filter (λ target, signed_difference a b target < 0)
                           (keys (Solution.targets a)))).

(** ** Further vocabulary for the comparison *)

(** The two counts of [comparedTo], taken over a given list of targets. *)
Definition up_on (ks : list string) (a b : Solution.t) : Z :=
  Z.of_nat (length (filter (λ target, 0 < signed_difference a b target) ks)).

Definition down_on (ks : list string) (a b : Solution.t) : Z :=
  Z.of_nat (length (filter (λ target, signed_difference a b target < 0) ks)).

(** [a] does better than [b] on a target: a larger value where the
    direction is 1, a smaller one where it is -1. *)
Definition beats (a b : Solution.t) (target : string) : Prop :=
  (Solution.targets a !!! target = 1 ∧
   Solution.fitness b !!! target < Solution.fitness a !!! target) ∨
  (Solution.targets a !!! target = -1 ∧
   Solution.fitness a !!! target < Solution.fitness b !!! target).

#[global] Instance beats_dec a b target : Decision (beats a b target) :=
  ltac:(unfold beats; apply _).

(** The number of declared targets on which [a] does better than [b]. *)
Definition wins (a b : Solution.t) : Z :=
  Z.of_nat (length (filter (beats a b) (keys (Solution.targets a)))).

(** The outcome of a call with its value negated. *)
Definition negated (r : result Z) : result Z :=
  match r with
  | Ok c => Ok (- c)
  | Raise e => Raise e
  end.

(** ** Dicts, loops and lookups *)

Section dict_facts.
Context {V : Type}.
Implicit Types (d : gmap string V) (k : string).

Lemma elem_of_keys d k : k ∈ keys d ↔ k ∈ dom d.
Proof.
  unfold keys. rewrite elem_of_dom, list_elem_of_fmap. split.
  - intros [[k' v] [-> Hin]]. apply elem_of_map_to_list in Hin. by exists v.
  - intros [v Hv]. exists (k, v). split; [done|]. by apply elem_of_map_to_list.
Qed.

Lemma NoDup_keys d : NoDup (keys d).
Proof. apply NoDup_fst_map_to_list. Qed.

Lemma length_keys d : length (keys d) = size d.
Proof. unfold keys. by rewrite length_fmap, length_map_to_list. Qed.

Lemma keys_nil d : keys d = [] ↔ d = ∅.
Proof.
  rewrite <- map_size_empty_iff, <- length_keys. by destruct (keys d).
Qed.

Lemma subscript_Ok d k v : subscript d k = Ok v ↔ d !! k = Some v.
Proof. unfold subscript. destruct (d !! k); split; congruence. Qed.

Lemma subscript_Raise d k e :
  subscript d k = Raise e ↔ d !! k = None ∧ e = KeyError.
Proof.
  unfold subscript. destruct (d !! k); split.
  - done.
  - by intros [].
  - by intros [= <-].
  - by intros [_ ->].
Qed.

Lemma subscript_in_dom d k : k ∈ dom d → ∃ v, subscript d k = Ok v.
Proof. intros [v Hv]%elem_of_dom. exists v. by apply subscript_Ok. Qed.

Lemma subscript_not_in_dom d k : k ∉ dom d → subscript d k = Raise KeyError.
Proof. intros ?%not_elem_of_dom. by apply subscript_Raise. Qed.

(** [d[k]] for a key that is there, with a default that is never used. *)
Lemma subscript_total `{!Inhabited V} d k :
  k ∈ dom d → subscript d k = Ok (d !!! k).
Proof.
  intros [v Hv]%elem_of_dom. rewrite (lookup_total_correct _ _ _ Hv).
  by apply subscript_Ok.
Qed.

End dict_facts.

Section loop_facts.
Context {A B : Type}.

Lemma for_each_Ok (body : A → result unit) xs :
  (∀ x, x ∈ xs → body x = Ok ()) → for_each body xs = Ok ().
Proof.
  induction xs as [|x xs IH]; intros Hall; [done|]. simpl.
  rewrite Hall by left. simpl. apply IH. intros y ?. apply Hall. by right.
Qed.

(** A loop in which every round either passes or raises [e] raises [e]
    as soon as one round does. *)
Lemma for_each_Raise (body : A → result unit) xs e x :
  (∀ y, y ∈ xs → body y = Ok () ∨ body y = Raise e) →
  x ∈ xs → body x = Raise e → for_each body xs = Raise e.
Proof.
  induction xs as [|y xs IH]; intros Hall Hin Hx.
  - by apply elem_of_nil in Hin.
  - simpl. destruct (Hall y) as [Hy|Hy]; [by left| |by rewrite Hy].
    rewrite Hy. simpl. apply elem_of_cons in Hin as [->|Hin]; [congruence|].
    apply IH; [|done..]. intros z ?. apply Hall. by right.
Qed.

Lemma mapM_Ok (f : A → result B) (g : A → B) xs :
  (∀ x, x ∈ xs → f x = Ok (g x)) → mapM f xs = Ok (g <$> xs).
Proof.
  induction xs as [|x xs IH]; intros Hall; [done|]. simpl.
  rewrite Hall by left. simpl. rewrite IH; [done|].
  intros y ?. apply Hall. by right.
Qed.

Lemma mapM_Raise (f : A → result B) xs e x :
  (∀ y e', f y = Raise e' → e' = e) →
  x ∈ xs → f x = Raise e → mapM f xs = Raise e.
Proof.
  intros Hone. induction xs as [|y xs IH]; intros Hin Hx.
  - by apply elem_of_nil in Hin.
  - simpl. destruct (f y) as [b|e'] eqn:Hy; simpl.
    + apply elem_of_cons in Hin as [->|Hin]; [congruence|].
      by rewrite IH.
    + f_equal. by eapply Hone.
Qed.

Lemma mapM_Raise_inv (f : A → result B) xs e :
  mapM f xs = Raise e → ∃ x, x ∈ xs ∧ f x = Raise e.
Proof.
  induction xs as [|y xs IH]; simpl; [done|].
  destruct (f y) as [b|e'] eqn:Hy; simpl.
  - destruct (mapM f xs) as [bs|e'']; simpl; [done|].
    intros [= ->]. destruct IH as (x & ? & ?); [done|].
    exists x. split; [by right|done].
  - intros [= ->]. exists y. split; [by left|done].
Qed.

End loop_facts.

(** ** Problem: validation of the directions *)

Section problem_facts.
Context {Data Kwargs : Type}.
Implicit Types (data : Data) (kwargs : Kwargs) (targets : gmap string Z).

Lemma check_target_cases targets name d :
  targets !! name = Some d →
  Problem.check_target targets name =
    if bool_decide (d = 1 ∨ d = -1) then Ok () else Raise InvalidTarget.
Proof.
  intros Hd. unfold Problem.check_target.
  apply subscript_Ok in Hd as ->. simpl.
  repeat case_bool_decide; try done; lia.
Qed.

(** C5: a mapping with a direction other than +1 and -1 makes the
    constructor of [Problem] raise the validation error; a mapping whose
    directions are all +1 or -1 is accepted and stored as it is. *)
Theorem C5_problem_init_validates data targets verbose kwargs :
  ((∃ name d, targets !! name = Some d ∧ d ≠ 1 ∧ d ≠ -1) →
   Problem.__init__ data targets verbose kwargs = Raise InvalidTarget) ∧
  ((∀ name d, targets !! name = Some d → d = 1 ∨ d = -1) →
   Problem.__init__ data targets verbose kwargs
     = Ok (Problem.mk targets data kwargs verbose)).
Proof.
  unfold Problem.__init__. split.
  - intros (name & d & Hd & Hne1 & Hne2).
    rewrite (for_each_Raise _ _ InvalidTarget name); [done|..].
    + intros y [v Hv]%elem_of_keys%elem_of_dom.
      rewrite (check_target_cases _ _ _ Hv). case_bool_decide; auto.
    + apply elem_of_keys, elem_of_dom. by exists d.
    + rewrite (check_target_cases _ _ _ Hd). case_bool_decide; [lia|done].
  - intros Hall. rewrite for_each_Ok; [done|].
    intros y [v Hv]%elem_of_keys%elem_of_dom.
    rewrite (check_target_cases _ _ _ Hv).
    case_bool_decide as Hv'; [done|]. destruct Hv'. by eapply Hall.
Qed.

End problem_facts.

Lemma C5_problem_init_validates_witness :
  Problem.__init__ () {[ "p"%string := 1; "mean"%string := 2 ]} 0 ()
    = Raise InvalidTarget ∧
  Problem.__init__ () {[ "p"%string := 1; "mean"%string := -1 ]} 0 ()
    = Ok (Problem.mk {[ "p"%string := 1; "mean"%string := -1 ]} () () 0).
Proof.
  split.
  - apply (C5_problem_init_validates () {[ "p"%string := 1; "mean"%string := 2 ]} 0 ()).
    exists "mean"%string, 2. by vm_compute.
  - apply (C5_problem_init_validates () {[ "p"%string := 1; "mean"%string := -1 ]} 0 ()).
    intros name d Hd.
    destruct (decide (name = "p"%string)) as [->|?];
      [|destruct (decide (name = "mean"%string)) as [->|?]];
      simplify_map_eq; auto.
Defined.

(** ** Solution: the fitness record and [is_evaluated] *)

Section solution_facts.
Import Solution.
Implicit Types (self : Solution.t) (target : string).

(** The loop of the constructor, from any starting object. *)
Lemma init_loop self names :
  let self' := foldl (λ self variable_name,
      with_encoded self (<[variable_name := None]> (encoded self))) self names in
  targets self' = targets self ∧ fitness self' = fitness self ∧
  ∀ n, encoded self' !! n
       = if decide (n ∈ names) then Some None else encoded self !! n.
Proof.
  revert self. induction names as [|x names IH]; intros self; simpl.
  - by split_and!.
  - destruct (IH (with_encoded self (<[x := None]> (encoded self))))
      as (-> & -> & Henc).
    split_and!; [done..|]. intros n. rewrite Henc. simpl.
    destruct (decide (n = x)) as [->|Hne].
    + rewrite lookup_insert_eq. rewrite (decide_True (P := x ∈ x :: names)) by left.
      by case_decide.
    + rewrite lookup_insert_ne by done. symmetry. apply decide_ext.
      rewrite elem_of_cons. split; [by intros [?|?]|by right].
Qed.

Lemma init_targets tgts names : targets (__init__ tgts names) = tgts.
Proof. apply (init_loop (mk tgts ∅ ∅) names). Qed.

Lemma init_fitness tgts names : fitness (__init__ tgts names) = ∅.
Proof. apply (init_loop (mk tgts ∅ ∅) names). Qed.

Lemma init_encoded tgts names n :
  n ∈ names → encoded (__init__ tgts names) !! n = Some None.
Proof.
  intros Hn. destruct (init_loop (mk tgts ∅ ∅) names) as (_ & _ & ->).
  by rewrite decide_True.
Qed.

(** The loop of [clear_fitness]: nothing happens without a declared
    target, and the record is empty after the first round. *)
Lemma clear_loop self (ks : list string) :
  let self' := foldl (λ self _, with_fitness self ∅) self ks in
  targets self' = targets self ∧ encoded self' = encoded self ∧
  fitness self' = match ks with [] => fitness self | _ => ∅ end.
Proof.
  revert self. induction ks as [|k ks IH]; intros self; simpl; [done|].
  destruct (IH (with_fitness self ∅)) as (-> & -> & ->).
  by destruct ks.
Qed.

Lemma clear_fitness_targets self : targets (clear_fitness self) = targets self.
Proof. apply (clear_loop self). Qed.

Lemma clear_fitness_fitness self :
  targets self ≠ ∅ → fitness (clear_fitness self) = ∅.
Proof.
  intros Hne. destruct (clear_loop self (keys (targets self))) as (_ & _ & Hf).
  unfold clear_fitness. rewrite Hf.
  destruct (keys (targets self)) eqn:Hk; [|done].
  by apply keys_nil in Hk.
Qed.

Lemma clear_fitness_no_target self :
  targets self = ∅ → clear_fitness self = self.
Proof.
  intros He. unfold clear_fitness. rewrite He.
  by replace (keys (∅ : gmap string Z)) with (@nil string)
    by (symmetry; by apply keys_nil).
Qed.

Lemma set_fitness_targets self target value :
  targets (set_fitness self target value).2 = targets self.
Proof. unfold set_fitness. by case_bool_decide. Qed.

Lemma set_fitness_declared self target value :
  target ∈ dom (targets self) →
  set_fitness self target value
    = (Ok (), with_fitness self (<[target := value]> (fitness self))).
Proof. intros ?. unfold set_fitness. by rewrite bool_decide_eq_true_2. Qed.

Lemma set_fitness_undeclared self target value :
  target ∉ dom (targets self) →
  set_fitness self target value = (Raise TargetMismatch, self).
Proof. intros ?. unfold set_fitness. by rewrite bool_decide_eq_false_2. Qed.

(** What [is_evaluated] decides. *)
Lemma is_evaluated_spec self :
  is_evaluated self = true ↔ dom (targets self) ⊆ dom (fitness self).
Proof.
  unfold is_evaluated. case_bool_decide as Hlt.
  - split; [done|]. intros Hsub%subseteq_size.
    rewrite !size_dom in Hsub. lia.
  - rewrite <- Is_true_true, forallb_True, Forall_forall. split.
    + intros Hall k Hk. apply elem_of_keys in Hk.
      by apply Hall, bool_decide_unpack in Hk.
    + intros Hsub k Hk%elem_of_keys. apply bool_decide_pack. by apply Hsub.
Qed.

(** The record of a reachable object only has declared targets. *)
Lemma reachable_fitness_declared self :
  reachable self → dom (fitness self) ⊆ dom (targets self).
Proof.
  induction 1 as [tgts names|self n v _ IH|self target v _ IH|self _ IH].
  - rewrite init_fitness, dom_empty_L. apply empty_subseteq.
  - done.
  - unfold set_fitness. case_bool_decide; simpl; [|done].
    rewrite dom_insert_L. apply union_least; [|done].
    by apply singleton_subseteq_l.
  - rewrite clear_fitness_targets.
    destruct (decide (targets self = ∅)) as [He|Hne].
    + by rewrite clear_fitness_no_target.
    + rewrite clear_fitness_fitness by done. rewrite dom_empty_L.
      apply empty_subseteq.
Qed.

Lemma set_fitness_calls_targets self calls :
  targets (set_fitness_calls self calls) = targets self.
Proof.
  revert self. induction calls as [|c calls IH]; intros self; [done|].
  simpl. by rewrite IH, set_fitness_targets.
Qed.

Lemma set_fitness_calls_keep self calls k :
  k ∈ dom (fitness self) → k ∈ dom (fitness (set_fitness_calls self calls)).
Proof.
  revert self. induction calls as [|c calls IH]; intros self Hk; [done|].
  simpl. apply IH. unfold set_fitness. case_bool_decide; simpl; [|done].
  rewrite dom_insert_L. by apply elem_of_union_r.
Qed.

Lemma set_fitness_calls_record self calls k :
  k ∈ dom (targets self) → k ∈ calls.*1 →
  k ∈ dom (fitness (set_fitness_calls self calls)).
Proof.
  revert self. induction calls as [|c calls IH]; intros self Hk Hin.
  - by apply elem_of_nil in Hin.
  - simpl in *. apply elem_of_cons in Hin as [->|Hin].
    + apply set_fitness_calls_keep. rewrite set_fitness_declared by done.
      simpl. rewrite dom_insert_L. by apply elem_of_union_l, elem_of_singleton.
    + apply IH; [|done]. by rewrite set_fitness_targets.
Qed.

End solution_facts.

(** ** Solution: the claims on the fitness record *)

(** C6: on every object built by the constructor and changed through the
    methods of the class, the keys of [fitness] are keys of [targets]; and
    [is_evaluated] answers true exactly when every key of [targets] has an
    entry in [fitness]. *)
Theorem C6_fitness_keys_within_targets (self : Solution.t) :
  (Solution.reachable self →
   dom (Solution.fitness self) ⊆ dom (Solution.targets self)) ∧
  (Solution.is_evaluated self = true ↔
   ∀ target, target ∈ dom (Solution.targets self) →
             target ∈ dom (Solution.fitness self)).
Proof.
  split.
  - apply reachable_fitness_declared.
  - apply is_evaluated_spec.
Qed.

Lemma C6_fitness_keys_within_targets_witness :
  let self := Solution.clear_fitness
    (Solution.set_fitness
       (Solution.__init__ {[ "p"%string := 1; "mean"%string := -1 ]} ["w"%string])
       "p" 3).2 in
  dom (Solution.fitness self) ⊆ dom (Solution.targets self).
Proof.
  intros self. apply (C6_fitness_keys_within_targets self).
  apply Solution.reachable_clear_fitness, Solution.reachable_set_fitness,
    Solution.reachable_init.
Defined.

(** C7, as stated, fails for the constructor called with no target: the
    new object answers true to [is_evaluated]. *)
Lemma C7_fresh_solution_counterexample :
  ¬ (∀ targets variable_names,
       (∀ variable_name, variable_name ∈ variable_names →
          Solution.get_encoded (Solution.__init__ targets variable_names)
            variable_name = Ok None) ∧
       Solution.is_evaluated (Solution.__init__ targets variable_names) = false).
Proof. intros H. by destruct (H ∅ ["w"%string]) as [_ Heval]. Qed.

(** C7, amended: a new object reads [None] for every declared variable
    name, and, when at least one target is declared, answers false to
    [is_evaluated]. *)
Theorem C7_fresh_solution (targets : gmap string Z) (variable_names : list string) :
  (∀ variable_name, variable_name ∈ variable_names →
     Solution.get_encoded (Solution.__init__ targets variable_names) variable_name
       = Ok None) ∧
  (targets ≠ ∅ →
   Solution.is_evaluated (Solution.__init__ targets variable_names) = false).
Proof.
  split.
  - intros n Hn. apply subscript_Ok. by apply init_encoded.
  - intros Hne. apply not_true_is_false. rewrite is_evaluated_spec.
    rewrite init_targets, init_fitness, dom_empty_L.
    intros Hsub. apply Hne, dom_empty_iff_L.
    apply leibniz_equiv, elem_of_equiv_empty. intros k Hk.
    by apply Hsub, elem_of_empty in Hk.
Qed.

Lemma C7_fresh_solution_witness :
  Solution.get_encoded
    (Solution.__init__ {[ "p"%string := 1 ]} ["w"%string; "h"%string]) "h"
    = Ok None ∧
  Solution.is_evaluated
    (Solution.__init__ {[ "p"%string := 1 ]} ["w"%string; "h"%string]) = false.
Proof.
  split.
  - apply (C7_fresh_solution {[ "p"%string := 1 ]} ["w"%string; "h"%string]).
    by right; left.
  - apply (C7_fresh_solution {[ "p"%string := 1 ]} ["w"%string; "h"%string]).
    intros He. vm_compute in He. discriminate He.
Defined.

(** C8, as stated, fails for an object with no declared target: it still
    answers true to [is_evaluated] after [clear_fitness]. *)
Lemma C8_set_then_clear_counterexample :
  ¬ (∀ self calls,
       (∀ target, target ∈ dom (Solution.targets self) → target ∈ calls.*1) →
       Solution.is_evaluated (Solution.set_fitness_calls self calls) = true ∧
       Solution.is_evaluated
         (Solution.clear_fitness (Solution.set_fitness_calls self calls)) = false).
Proof.
  intros H. destruct (H (Solution.__init__ ∅ []) []) as [_ Hclear].
  - intros target Htarget. by vm_compute in Htarget.
  - by vm_compute in Hclear.
Qed.

(** C8, amended: once [set_fitness] has been called for every declared
    target, [is_evaluated] answers true; and when at least one target is
    declared, it answers false after a following [clear_fitness]. *)
Theorem C8_set_then_clear (self : Solution.t) (calls : list (string * Z)) :
  (∀ target, target ∈ dom (Solution.targets self) → target ∈ calls.*1) →
  Solution.is_evaluated (Solution.set_fitness_calls self calls) = true ∧
  (Solution.targets self ≠ ∅ →
   Solution.is_evaluated
     (Solution.clear_fitness (Solution.set_fitness_calls self calls)) = false).
Proof.
  intros Hcalls. split.
  - apply is_evaluated_spec. rewrite set_fitness_calls_targets.
    intros k Hk. apply set_fitness_calls_record; auto.
  - intros Hne. apply not_true_is_false. rewrite is_evaluated_spec.
    rewrite clear_fitness_targets, clear_fitness_fitness
      by (by rewrite set_fitness_calls_targets).
    rewrite set_fitness_calls_targets, dom_empty_L.
    intros Hsub. apply Hne, dom_empty_iff_L.
    apply leibniz_equiv, elem_of_equiv_empty. intros k Hk.
    by apply Hsub, elem_of_empty in Hk.
Qed.

Lemma C8_set_then_clear_witness :
  let self := Solution.__init__ {[ "p"%string := 1 ]} ["w"%string] in
  let calls := [("p"%string, 4); ("p"%string, 7)] in
  Solution.is_evaluated (Solution.set_fitness_calls self calls) = true ∧
  Solution.is_evaluated
    (Solution.clear_fitness (Solution.set_fitness_calls self calls)) = false.
Proof.
  intros self calls.
  assert (∀ target, target ∈ dom (Solution.targets self) → target ∈ calls.*1)
    as Hcalls.
  { intros target. unfold self. rewrite init_targets, dom_singleton_L.
    intros ->%elem_of_singleton. by left. }
  destruct (C8_set_then_clear self calls Hcalls) as [Hset Hclear].
  split; [exact Hset|]. apply Hclear.
  intros He. vm_compute in He. discriminate He.
Defined.

(** C9: for a name that is not a key of [targets], [get_fitness] and
    [set_fitness] raise the target-mismatch error, and [set_fitness] leaves
    the object, hence its [fitness], as it was. *)
Theorem C9_undeclared_target_mismatch (self : Solution.t) (target : string) (value : Z) :
  target ∉ dom (Solution.targets self) →
  Solution.get_fitness self target = Raise TargetMismatch ∧
  (Solution.set_fitness self target value).1 = Raise TargetMismatch ∧
  Solution.fitness (Solution.set_fitness self target value).2
    = Solution.fitness self.
Proof.
  intros Hundeclared. rewrite set_fitness_undeclared by done.
  unfold Solution.get_fitness. by rewrite bool_decide_eq_false_2.
Qed.

Lemma C9_undeclared_target_mismatch_witness :
  let self := (Solution.set_fitness
                 (Solution.__init__ {[ "p"%string := 1 ]} []) "p" 5).2 in
  Solution.get_fitness self "q" = Raise TargetMismatch ∧
  (Solution.set_fitness self "q" 9).1 = Raise TargetMismatch ∧
  Solution.fitness (Solution.set_fitness self "q" 9).2 = Solution.fitness self.
Proof.
  intros self. apply (C9_undeclared_target_mismatch self "q" 9).
  unfold self. rewrite set_fitness_targets, init_targets, dom_singleton_L.
  by intros ?%elem_of_singleton.
Defined.

(** C10: [get_fitness] on a declared target without a recorded value
    raises the lookup error of the [fitness] dict; the target-mismatch
    error is raised for undeclared names and for them only. *)
Theorem C10_get_fitness_errors (self : Solution.t) (target : string) :
  (target ∈ dom (Solution.targets self) →
   target ∉ dom (Solution.fitness self) →
   Solution.get_fitness self target = Raise KeyError) ∧
  (Solution.get_fitness self target = Raise TargetMismatch ↔
   target ∉ dom (Solution.targets self)).
Proof.
  unfold Solution.get_fitness. split.
  - intros Hdeclared Hmissing. rewrite bool_decide_eq_true_2 by done.
    by apply subscript_not_in_dom.
  - case_bool_decide as Hdeclared; split; try done.
    intros [_ [=]]%subscript_Raise.
Qed.

Lemma C10_get_fitness_errors_witness :
  Solution.get_fitness (Solution.__init__ {[ "p"%string := 1 ]} []) "p"
    = Raise KeyError.
Proof.
  apply (C10_get_fitness_errors (Solution.__init__ {[ "p"%string := 1 ]} []) "p").
  - rewrite init_targets, dom_singleton_L. by apply elem_of_singleton.
  - rewrite init_fitness, dom_empty_L. apply not_elem_of_empty.
Defined.

(** ** Solution: the comparison *)

(** C4: when [comparedTo] returns a value, each relational operator
    returns the sign test of that value; and the two objects of the
    balanced example, which agree on no fitness value, are [==]. *)
Theorem C4_operators_from_comparedTo (self solution : Solution.t) (c : Z) :
  Solution.comparedTo self solution = Ok c →
  (Solution.__eq__ self solution = Ok (bool_decide (c = 0)) ∧
   Solution.__lt__ self solution = Ok (bool_decide (c < 0)) ∧
   Solution.__gt__ self solution = Ok (bool_decide (c > 0)) ∧
   Solution.__le__ self solution = Ok (bool_decide (c <= 0)) ∧
   Solution.__ge__ self solution = Ok (bool_decide (c >= 0))) ∧
  (let targets : gmap string Z := {[ "a"%string := 1; "b"%string := 1 ]} in
   let x := Solution.set_fitness_calls (Solution.__init__ targets [])
              [("a"%string, 10); ("b"%string, 1)] in
   let y := Solution.set_fitness_calls (Solution.__init__ targets [])
              [("a"%string, 1); ("b"%string, 10)] in
   Solution.comparedTo x y = Ok 0 ∧ Solution.__eq__ x y = Ok true ∧
   ∀ target, target ∈ dom targets →
     Solution.fitness x !! target ≠ Solution.fitness y !! target).
Proof.
  intros Hc. split.
  - unfold Solution.__eq__, Solution.__lt__, Solution.__gt__,
      Solution.__le__, Solution.__ge__. rewrite Hc. simpl.
    repeat split; by case_bool_decide.
  - split; [by vm_compute|]. split; [by vm_compute|].
    intros target. rewrite dom_insert_L, dom_singleton_L.
    rewrite elem_of_union, !elem_of_singleton.
    intros [->| ->]; by vm_compute.
Qed.

Lemma C4_operators_from_comparedTo_witness :
  let targets : gmap string Z := {[ "a"%string := 1; "b"%string := -1 ]} in
  let x := Solution.set_fitness_calls (Solution.__init__ targets [])
             [("a"%string, 10); ("b"%string, 5)] in
  let y := Solution.set_fitness_calls (Solution.__init__ targets [])
             [("a"%string, 8); ("b"%string, 5)] in
  Solution.__eq__ x y = Ok false ∧ Solution.__lt__ x y = Ok false ∧
  Solution.__gt__ x y = Ok true ∧ Solution.__le__ x y = Ok false ∧
  Solution.__ge__ x y = Ok true.
Proof.
  intros targets x y.
  assert (Solution.comparedTo x y = Ok 1) as Hc by (by vm_compute).
  exact (proj1 (C4_operators_from_comparedTo x y 1 Hc)).
Defined.

Section comparison_facts.
Import Solution.
Implicit Types (self solution : Solution.t) (target : string).

Lemma elem_of_items (d : gmap string Z) k v : (k, v) ∈ items d ↔ d !! k = Some v.
Proof. unfold items. by rewrite elem_of_list_to_set, elem_of_map_to_list. Qed.

Lemma size_items (d : gmap string Z) : size (items d) = size d.
Proof.
  unfold items. rewrite size_list_to_set by apply NoDup_map_to_list.
  apply length_map_to_list.
Qed.

(** The first test of [comparedTo] passes exactly when every item of
    [self.targets] is an item of [solution.targets]. *)
Lemma targets_check_spec (d1 d2 : gmap string Z) :
  size (items d1 ∩ items d2) = size d1 ↔ d1 ⊆ d2.
Proof.
  rewrite <- (size_items d1), map_subseteq_spec. split.
  - intros Hsize k v Hk%elem_of_items. apply elem_of_items.
    assert (items d1 ∩ items d2 = items d1) as Heq.
    { apply set_subseteq_size_eq; [apply intersection_subseteq_l|lia]. }
    rewrite <- Heq in Hk. by apply elem_of_intersection in Hk as [_ ?].
  - intros Hsub. f_equal. apply leibniz_equiv, (anti_symm _).
    + apply intersection_subseteq_l.
    + intros [k v] Hk. apply elem_of_intersection. split; [done|].
      by apply elem_of_items, Hsub, elem_of_items.
Qed.

(** A round of the loop of [comparedTo] fails by a dict lookup only. *)
Lemma difference_Raise self solution target e :
  difference self solution target = Raise e → e = KeyError.
Proof.
  unfold difference.
  destruct (subscript (fitness self) target) eqn:H1; simpl;
    [|intros [= <-]; by apply subscript_Raise in H1 as [_ ->]].
  destruct (subscript (targets self) target) eqn:H2; simpl;
    [|intros [= <-]; by apply subscript_Raise in H2 as [_ ->]].
  destruct (subscript (fitness solution) target) eqn:H3; simpl;
    [|intros [= <-]; by apply subscript_Raise in H3 as [_ ->]].
  destruct (subscript (targets solution) target) eqn:H4; simpl;
    [done|intros [= <-]; by apply subscript_Raise in H4 as [_ ->]].
Qed.

Lemma difference_missing self solution target :
  target ∉ dom (fitness solution) →
  difference self solution target = Raise KeyError.
Proof.
  intros Hmiss. destruct (difference self solution target) as [z|e] eqn:Hd.
  - exfalso. unfold difference in Hd.
    rewrite (subscript_not_in_dom (fitness solution)) in Hd by done.
    destruct (subscript (fitness self) target); simpl in Hd; [|done].
    by destruct (subscript (targets self) target).
  - f_equal. by eapply difference_Raise.
Qed.

(** Where both records hold every declared target and the directions
    are shared, a round computes the signed difference. *)
Lemma difference_Ok self solution target :
  targets self = targets solution →
  target ∈ dom (targets self) →
  target ∈ dom (fitness self) → target ∈ dom (fitness solution) →
  difference self solution target = Ok (signed_difference self solution target).
Proof.
  intros Htargets Hdeclared Ha Hb. unfold difference, signed_difference.
  rewrite (subscript_total (fitness self)) by done. simpl.
  rewrite (subscript_total (targets self)) by done. simpl.
  rewrite (subscript_total (fitness solution)) by done. simpl.
  rewrite <- Htargets.
  by rewrite (subscript_total (targets self)) by done.
Qed.

Lemma length_filter_fmap {A B} (f : A → B) (P : B → Prop)
    `{!∀ y, Decision (P y)} (l : list A) :
  length (filter P (f <$> l)) = length (filter (λ x, P (f x)) l).
Proof.
  induction l as [|x l IH]; [done|]. csimpl.
  rewrite !filter_cons. case_decide; simpl; by rewrite IH.
Qed.

Lemma keys_Permutation {V W} (d1 : gmap string V) (d2 : gmap string W) :
  dom d1 = dom d2 → keys d1 ≡ₚ keys d2.
Proof.
  intros Hdom. apply NoDup_Permutation; [apply NoDup_keys..|].
  intros k. by rewrite !elem_of_keys, Hdom.
Qed.

(** After the two tests: the value computed from the list of differences
    when every round succeeds. *)
Lemma comparedTo_targets_refused self solution :
  ¬ targets self ⊆ targets solution →
  comparedTo self solution = Raise NotComparable.
Proof.
  intros Hsub. unfold comparedTo. rewrite bool_decide_eq_true_2; [done|].
  by intros ?%targets_check_spec.
Qed.

Lemma comparedTo_passes self solution :
  targets self ⊆ targets solution →
  size (fitness self) = size (fitness solution) →
  comparedTo self solution =
    differences ← mapM (difference self solution) (keys (fitness self));
    Ok (count_positive differences - count_negative differences).
Proof.
  intros Hsub Hsize. unfold comparedTo.
  rewrite bool_decide_eq_false_2 by (by intros []; apply targets_check_spec).
  by rewrite bool_decide_eq_false_2 by (by intros []).
Qed.

End comparison_facts.

(** C1: for two objects of the class with the same [targets], each
    holding a fitness value for every declared target, [comparedTo]
    returns [a_up - b_up]: the number of targets on which the signed
    difference is positive minus the number on which it is negative. *)
Theorem C1_comparedTo_net_wins (a b : Solution.t) :
  Solution.reachable a → Solution.reachable b →
  Solution.targets a = Solution.targets b →
  (∀ target, target ∈ dom (Solution.targets a) →
             target ∈ dom (Solution.fitness a)) →
  (∀ target, target ∈ dom (Solution.targets b) →
             target ∈ dom (Solution.fitness b)) →
  Solution.comparedTo a b = Ok (a_up a b - b_up a b).
Proof.
  intros Ha%reachable_fitness_declared Hb%reachable_fitness_declared
    Htargets Hfa Hfb.
  assert (dom (Solution.fitness a) = dom (Solution.targets a)) as Hdoma
    by (by apply leibniz_equiv, (anti_symm _)).
  assert (dom (Solution.fitness b) = dom (Solution.targets a)) as Hdomb.
  { rewrite Htargets. by apply leibniz_equiv, (anti_symm _). }
  rewrite comparedTo_passes.
  - rewrite (mapM_Ok _ (signed_difference a b)).
    + simpl. unfold Solution.count_positive, Solution.count_negative, a_up, b_up.
      rewrite !length_filter_fmap.
      by rewrite (keys_Permutation _ _ Hdoma).
    + intros target Htarget%elem_of_keys. apply difference_Ok; [done|..].
      * by rewrite <- Hdoma.
      * done.
      * by rewrite Hdomb, <- Hdoma.
  - by rewrite Htargets.
  - by rewrite <- !(size_dom (D := gset string)), Hdoma, Hdomb.
Qed.

Lemma C1_comparedTo_net_wins_witness :
  let targets : gmap string Z := {[ "a"%string := 1; "b"%string := -1 ]} in
  let x := (Solution.set_fitness (Solution.set_fitness
              (Solution.__init__ targets ["w"%string]) "a" 10).2 "b" 5).2 in
  let y := (Solution.set_fitness (Solution.set_fitness
              (Solution.__init__ targets ["w"%string]) "a" 8).2 "b" 7).2 in
  Solution.comparedTo x y = Ok (a_up x y - b_up x y) ∧
  a_up x y = 2 ∧ b_up x y = 0.
Proof.
  intros targets x y. split; [|by vm_compute].
  apply (C1_comparedTo_net_wins x y).
  - repeat apply Solution.reachable_set_fitness. apply Solution.reachable_init.
  - repeat apply Solution.reachable_set_fitness. apply Solution.reachable_init.
  - reflexivity.
  - assert (dom (Solution.fitness x) = dom (Solution.targets x)) as ->
      by (vm_compute; reflexivity).
    auto.
  - assert (dom (Solution.fitness y) = dom (Solution.targets y)) as ->
      by (vm_compute; reflexivity).
    auto.
Defined.

(** C2: the first test of [comparedTo] lets a pair through when
    [solution.targets] is a strict superset of [self.targets]: the call
    returns a value, while the same pair taken the other way round is
    refused as not comparable. *)
Theorem C2_strict_superset_not_refused :
  let a := Solution.__init__ {[ "p"%string := 1 ]} [] in
  let b := Solution.__init__ (<[ "q"%string := 1 ]> {[ "p"%string := 1 ]}) [] in
  Solution.targets a ⊂ Solution.targets b ∧
  Solution.comparedTo a b = Ok 0 ∧
  Solution.comparedTo b a = Raise NotComparable.
Proof.
  intros a b. split; [|split; by vm_compute].
  unfold a, b. rewrite !init_targets. apply insert_subset. by vm_compute.
Qed.

(** C3: with the same [targets] on both sides, [comparedTo] raises the
    not-comparable error exactly when the two [fitness] dicts differ in
    their number of entries; with equal numbers and different key sets
    the call fails by a dict lookup instead. *)
Theorem C3_fitness_count_check (a b : Solution.t) :
  Solution.targets a = Solution.targets b →
  (Solution.comparedTo a b = Raise NotComparable ↔
   size (Solution.fitness a) ≠ size (Solution.fitness b)) ∧
  (size (Solution.fitness a) = size (Solution.fitness b) →
   dom (Solution.fitness a) ≠ dom (Solution.fitness b) →
   Solution.comparedTo a b = Raise KeyError).
Proof.
  intros Htargets.
  assert (size (Solution.fitness a) = size (Solution.fitness b) →
          ∀ e, Solution.comparedTo a b = Raise e → e = KeyError) as Hlookup.
  { intros Hsize e. rewrite comparedTo_passes by (by rewrite ?Htargets).
    destruct (mapM _ _) as [ds|e'] eqn:HmapM; simpl; [done|].
    intros [= ->]. apply mapM_Raise_inv in HmapM as (target & _ & Hd).
    by eapply difference_Raise. }
  split; [split|].
  - intros Hraise Hsize. by specialize (Hlookup Hsize _ Hraise).
  - intros Hsize. unfold Solution.comparedTo.
    rewrite bool_decide_eq_false_2
      by (rewrite Htargets; by intros []; apply targets_check_spec).
    by rewrite bool_decide_eq_true_2.
  - intros Hsize Hdom.
    assert (∃ target, target ∈ dom (Solution.fitness a) ∧
                      target ∉ dom (Solution.fitness b)) as (target & Hin & Hout).
    { destruct (decide (dom (Solution.fitness a) ∖ dom (Solution.fitness b) = ∅))
        as [Hsub%empty_difference_subseteq_L|Hnsub].
      - destruct Hdom. apply set_subseteq_size_eq; [done|].
        rewrite !size_dom. lia.
      - apply set_choose_L in Hnsub as [target [? ?]%elem_of_difference].
        by exists target. }
    rewrite comparedTo_passes by (by rewrite ?Htargets).
    rewrite (mapM_Raise _ _ KeyError target); [done|..].
    + intros. by eapply difference_Raise.
    + by apply elem_of_keys.
    + by apply difference_missing.
Qed.

Lemma C3_fitness_count_check_witness :
  let targets : gmap string Z := {[ "p"%string := 1; "q"%string := 1 ]} in
  let x := (Solution.set_fitness (Solution.__init__ targets []) "p" 3).2 in
  let y := (Solution.set_fitness (Solution.__init__ targets []) "q" 3).2 in
  Solution.comparedTo x (Solution.__init__ targets []) = Raise NotComparable ∧
  Solution.comparedTo x y = Raise KeyError.
Proof.
  intros targets x y. split.
  - apply (C3_fitness_count_check x (Solution.__init__ targets [])).
    + reflexivity.
    + vm_compute. discriminate.
  - apply (C3_fitness_count_check x y).
    + reflexivity.
    + vm_compute. reflexivity.
    + intros Hdom. vm_compute in Hdom. discriminate Hdom.
Defined.

(** ** Further properties: the accessors *)

(** X1: [set_encoded] accepts any name, declared or not; the value it
    stores is what [get_encoded] then returns for that name, every other
    name reads as before, and [targets] and [fitness] are untouched. *)
Theorem X1_set_then_get_encoded (self : Solution.t) (variable_name other : string)
    (value : option Z) :
  Solution.get_encoded (Solution.set_encoded self variable_name value) variable_name
    = Ok value ∧
  (other ≠ variable_name →
   Solution.get_encoded (Solution.set_encoded self variable_name value) other
     = Solution.get_encoded self other) ∧
  Solution.targets (Solution.set_encoded self variable_name value)
    = Solution.targets self ∧
  Solution.fitness (Solution.set_encoded self variable_name value)
    = Solution.fitness self.
Proof.
  unfold Solution.get_encoded, Solution.set_encoded. simpl. split_and!; try done.
  - apply subscript_Ok, lookup_insert_eq.
  - intros Hne. unfold subscript. by rewrite lookup_insert_ne.
Qed.

Lemma X1_set_then_get_encoded_witness :
  let self := Solution.__init__ {[ "p"%string := 1 ]} ["w"%string] in
  Solution.get_encoded (Solution.set_encoded self "h" (Some 3)) "w" = Ok None.
Proof.
  intros self.
  destruct (X1_set_then_get_encoded self "h" "w" (Some 3)) as (_ & Hother & _).
  rewrite Hother; [reflexivity|]. intros [=].
Defined.

(** X2: on a new object [get_encoded] returns [None] for the names
    given to the constructor and fails with a lookup error for any other
    name. *)
Theorem X2_get_encoded_on_fresh (targets : gmap string Z)
    (variable_names : list string) (variable_name : string) :
  Solution.get_encoded (Solution.__init__ targets variable_names) variable_name
    = if bool_decide (variable_name ∈ variable_names)
      then Ok None else Raise KeyError.
Proof.
  unfold Solution.get_encoded, subscript.
  destruct (init_loop (Solution.mk targets ∅ ∅) variable_names) as (_ & _ & Henc).
  unfold Solution.__init__. rewrite Henc. simpl.
  case_bool_decide.
  - by rewrite decide_True.
  - by rewrite decide_False, lookup_empty.
Qed.

(** X3: after [set_fitness] on a declared target, [get_fitness] returns
    the value just stored for it, and for every other name it answers as
    before the call. *)
Theorem X3_set_then_get_fitness (self : Solution.t) (target other : string) (value : Z) :
  (target ∈ dom (Solution.targets self) →
   Solution.get_fitness (Solution.set_fitness self target value).2 target
     = Ok value) ∧
  (other ≠ target →
   Solution.get_fitness (Solution.set_fitness self target value).2 other
     = Solution.get_fitness self other).
Proof.
  split.
  - intros Hdeclared. rewrite set_fitness_declared by done.
    unfold Solution.get_fitness. simpl. rewrite bool_decide_eq_true_2 by done.
    apply subscript_Ok, lookup_insert_eq.
  - intros Hne.
    destruct (decide (target ∈ dom (Solution.targets self))) as [Ht|Ht].
    + rewrite set_fitness_declared by done.
      unfold Solution.get_fitness, subscript. simpl.
      by rewrite lookup_insert_ne.
    + by rewrite set_fitness_undeclared.
Qed.

Lemma X3_set_then_get_fitness_witness :
  let self := Solution.__init__ {[ "p"%string := 1; "q"%string := -1 ]} [] in
  Solution.get_fitness (Solution.set_fitness self "p" 7).2 "p" = Ok 7 ∧
  Solution.get_fitness (Solution.set_fitness self "p" 7).2 "q" = Raise KeyError.
Proof.
  intros self. destruct (X3_set_then_get_fitness self "p" "q" 7) as [Hsame Hother].
  split.
  - apply Hsame. unfold self. rewrite init_targets, dom_insert_L.
    by apply elem_of_union_l, elem_of_singleton.
  - rewrite Hother; [by vm_compute|]. intros [=].
Defined.

(** X4: a second [set_fitness] on the same target replaces the first
    value and nothing else; calls on different targets can be swapped. *)
Theorem X4_set_fitness_overwrites_and_commutes (self : Solution.t)
    (target other : string) (value value' : Z) :
  (Solution.set_fitness (Solution.set_fitness self target value).2 target value').2
    = (Solution.set_fitness self target value').2 ∧
  (target ≠ other →
   (Solution.set_fitness (Solution.set_fitness self target value).2 other value').2
     = (Solution.set_fitness (Solution.set_fitness self other value').2
          target value).2).
Proof.
  split.
  - destruct (decide (target ∈ dom (Solution.targets self))) as [Ht|Ht].
    + rewrite (set_fitness_declared self target value) by done. simpl.
      rewrite !set_fitness_declared by done.
      unfold Solution.with_fitness. simpl. by rewrite insert_insert_eq.
    + rewrite (set_fitness_undeclared self target value) by done. simpl.
      by rewrite !set_fitness_undeclared.
  - intros Hne.
    destruct (decide (target ∈ dom (Solution.targets self))) as [Ht|Ht];
      destruct (decide (other ∈ dom (Solution.targets self))) as [Ho|Ho].
    + rewrite (set_fitness_declared self target value) by done.
      rewrite (set_fitness_declared self other value') by done. simpl.
      rewrite !set_fitness_declared by done.
      unfold Solution.with_fitness. simpl. f_equal. by apply insert_insert_ne.
    + rewrite (set_fitness_undeclared self other) by done. simpl.
      rewrite (set_fitness_declared self target) by done. simpl.
      by rewrite set_fitness_undeclared.
    + rewrite (set_fitness_undeclared self target) by done. simpl.
      rewrite (set_fitness_declared self other) by done. simpl.
      by rewrite set_fitness_undeclared.
    + rewrite (set_fitness_undeclared self target value) by done.
      rewrite (set_fitness_undeclared self other value') by done. simpl.
      rewrite (set_fitness_undeclared self target value) by done.
      by rewrite (set_fitness_undeclared self other value') by done.
Qed.

Lemma X4_set_fitness_overwrites_and_commutes_witness :
  let self := Solution.__init__ {[ "p"%string := 1; "q"%string := -1 ]} [] in
  (Solution.set_fitness (Solution.set_fitness self "p" 7).2 "q" 2).2
    = (Solution.set_fitness (Solution.set_fitness self "q" 2).2 "p" 7).2.
Proof.
  intros self.
  apply (X4_set_fitness_overwrites_and_commutes self "p" "q" 7 2). intros [=].
Defined.

(** X5: an object of the class never records more fitness values than it
    has declared targets, and [is_evaluated] answers true exactly when the
    two numbers agree, that is, when the recorded targets are the declared
    ones. *)
Theorem X5_evaluated_iff_counts_agree (self : Solution.t) :
  Solution.reachable self →
  (size (Solution.fitness self) ≤ size (Solution.targets self))%nat ∧
  (Solution.is_evaluated self = true ↔
   size (Solution.fitness self) = size (Solution.targets self)) ∧
  (Solution.is_evaluated self = true ↔
   dom (Solution.fitness self) = dom (Solution.targets self)).
Proof.
  intros Hsub%reachable_fitness_declared.
  assert (size (Solution.fitness self) ≤ size (Solution.targets self))%nat as Hle.
  { rewrite <- !(size_dom (D := gset string)). by apply subseteq_size. }
  rewrite is_evaluated_spec. split_and!; [done|split|split].
  - intros Hsup. rewrite <- !(size_dom (D := gset string)).
    f_equal. by apply leibniz_equiv, (anti_symm _).
  - intros Hsize. rewrite <- !(size_dom (D := gset string)) in Hsize.
    rewrite (set_subseteq_size_eq _ _ Hsub); [done|lia].
  - intros Hsup. by apply leibniz_equiv, (anti_symm _).
  - by intros ->.
Qed.

Lemma X5_evaluated_iff_counts_agree_witness :
  let self := (Solution.set_fitness
                 (Solution.__init__ {[ "p"%string := 1; "q"%string := -1 ]} [])
                 "q" 4).2 in
  (size (Solution.fitness self) ≤ size (Solution.targets self))%nat ∧
  Solution.is_evaluated self = false.
Proof.
  intros self.
  assert (Solution.reachable self) as Hreach
    by apply Solution.reachable_set_fitness, Solution.reachable_init.
  destruct (X5_evaluated_iff_counts_agree self Hreach) as (Hle & Hsize & _).
  split; [exact Hle|]. apply not_true_iff_false. rewrite Hsize.
  vm_compute. discriminate.
Defined.

(** X6: on an object of the class [clear_fitness] always empties the
    record and changes nothing else, also when no target is declared and
    its loop body never runs; reading any declared target afterwards fails
    with a lookup error. *)
Theorem X6_clear_fitness_empties (self : Solution.t) :
  Solution.reachable self →
  Solution.clear_fitness self
    = Solution.mk (Solution.targets self) ∅ (Solution.encoded self) ∧
  ∀ target, target ∈ dom (Solution.targets self) →
    Solution.get_fitness (Solution.clear_fitness self) target = Raise KeyError.
Proof.
  intros Hsub%reachable_fitness_declared.
  assert (Solution.clear_fitness self
          = Solution.mk (Solution.targets self) ∅ (Solution.encoded self)) as ->.
  { destruct (decide (Solution.targets self = ∅)) as [He|Hne].
    - rewrite clear_fitness_no_target by done.
      rewrite He, dom_empty_L in Hsub.
      assert (Solution.fitness self = ∅) as Hf.
      { apply dom_empty_iff_L, leibniz_equiv, elem_of_equiv_empty.
        intros k Hk. by apply Hsub, elem_of_empty in Hk. }
      destruct self as [ts fs es]. simpl in *. by subst.
    - destruct (clear_loop self (keys (Solution.targets self))) as (Ht & Henc & Hf).
      pose proof (clear_fitness_fitness self Hne) as Hempty.
      unfold Solution.clear_fitness in *.
      destruct (foldl _ self _) as [ts fs es]. simpl in *.
      by rewrite Ht, Henc, Hempty. }
  split; [done|]. intros target Hdeclared.
  unfold Solution.get_fitness. simpl. rewrite bool_decide_eq_true_2 by done.
  apply subscript_not_in_dom. rewrite dom_empty_L. apply not_elem_of_empty.
Qed.

Lemma X6_clear_fitness_empties_witness :
  let self := (Solution.set_fitness
                 (Solution.__init__ {[ "p"%string := 1 ]} ["w"%string]) "p" 4).2 in
  Solution.fitness (Solution.clear_fitness self) = ∅.
Proof.
  intros self.
  assert (Solution.reachable self) as Hreach
    by apply Solution.reachable_set_fitness, Solution.reachable_init.
  destruct (X6_clear_fitness_empties self Hreach) as [-> _]. reflexivity.
Defined.

(** X7: [set_fitness] never removes a recorded target: an object that is
    evaluated is still evaluated after the call, whatever the name and the
    value given. *)
Theorem X7_set_fitness_keeps_evaluated (self : Solution.t) (target : string) (value : Z) :
  Solution.is_evaluated self = true →
  Solution.is_evaluated (Solution.set_fitness self target value).2 = true.
Proof.
  rewrite !is_evaluated_spec, set_fitness_targets. intros Hsub.
  unfold Solution.set_fitness. case_bool_decide; simpl; [|done].
  rewrite dom_insert_L. intros k Hk. by apply elem_of_union_r, Hsub.
Qed.

Lemma X7_set_fitness_keeps_evaluated_witness :
  let self := (Solution.set_fitness
                 (Solution.__init__ {[ "p"%string := 1 ]} []) "p" 4).2 in
  Solution.is_evaluated (Solution.set_fitness self "p" 9).2 = true ∧
  Solution.is_evaluated (Solution.set_fitness self "q" 9).2 = true.
Proof.
  intros self. split.
  - apply (X7_set_fitness_keeps_evaluated self "p" 9). reflexivity.
  - apply (X7_set_fitness_keeps_evaluated self "q" 9). reflexivity.
Defined.

(** ** Further properties: the comparison *)

Section comparison_outcomes.
Import Solution.
Implicit Types (self solution : Solution.t) (target : string).

Lemma difference_recorded self solution target :
  targets self ⊆ targets solution →
  target ∈ dom (targets self) →
  target ∈ dom (fitness self) → target ∈ dom (fitness solution) →
  difference self solution target = Ok (signed_difference self solution target).
Proof.
  intros Hsub [d Hd]%elem_of_dom Ha Hb. unfold difference, signed_difference.
  rewrite (subscript_total (fitness self)) by done. simpl.
  rewrite (lookup_total_correct _ _ _ Hd).
  rewrite (proj2 (subscript_Ok (targets self) target d)) by done. simpl.
  rewrite (subscript_total (fitness solution)) by done. simpl.
  rewrite (proj2 (subscript_Ok (targets solution) target d))
    by (by eapply lookup_weaken).
  done.
Qed.

Lemma comparedTo_recorded self solution :
  dom (fitness self) ⊆ dom (targets self) →
  targets self ⊆ targets solution →
  dom (fitness self) = dom (fitness solution) →
  comparedTo self solution
    = Ok (up_on (keys (fitness self)) self solution
          - down_on (keys (fitness self)) self solution).
Proof.
  intros Hdeclared Hsub Hdom. rewrite comparedTo_passes; [|done|].
  - rewrite (mapM_Ok _ (signed_difference self solution)).
    + simpl. unfold count_positive, count_negative, up_on, down_on.
      by rewrite !length_filter_fmap.
    + intros target Htarget%elem_of_keys.
      apply difference_recorded; [done|by apply Hdeclared|done|by rewrite <- Hdom].
  - by rewrite <- !(size_dom (D := gset string)), Hdom.
Qed.

Lemma comparedTo_count_mismatch self solution :
  targets self ⊆ targets solution →
  size (fitness self) ≠ size (fitness solution) →
  comparedTo self solution = Raise NotComparable.
Proof.
  intros Hsub Hsize. unfold comparedTo.
  rewrite bool_decide_eq_false_2 by (by intros []; apply targets_check_spec).
  by rewrite bool_decide_eq_true_2.
Qed.

Lemma comparedTo_key_mismatch self solution :
  targets self ⊆ targets solution →
  size (fitness self) = size (fitness solution) →
  dom (fitness self) ≠ dom (fitness solution) →
  comparedTo self solution = Raise KeyError.
Proof.
  intros Hsub Hsize Hdom.
  assert (∃ target, target ∈ dom (fitness self) ∧
                    target ∉ dom (fitness solution)) as (target & Hin & Hout).
  { destruct (decide (dom (fitness self) ∖ dom (fitness solution) = ∅))
      as [Hin%empty_difference_subseteq_L|Hex].
    - destruct Hdom. apply set_subseteq_size_eq; [done|].
      rewrite !size_dom. lia.
    - apply set_choose_L in Hex as [target [? ?]%elem_of_difference].
      by exists target. }
  rewrite comparedTo_passes by done.
  rewrite (mapM_Raise _ _ KeyError target); [done|..].
  - intros. by eapply difference_Raise.
  - by apply elem_of_keys.
  - by apply difference_missing.
Qed.

Lemma signed_difference_swap self solution target :
  targets self = targets solution →
  signed_difference solution self target = - signed_difference self solution target.
Proof. intros Htargets. unfold signed_difference. rewrite Htargets. lia. Qed.

Lemma up_on_swap ks self solution :
  targets self = targets solution →
  up_on ks solution self = down_on ks self solution ∧
  down_on ks solution self = up_on ks self solution.
Proof.
  intros Htargets. unfold up_on, down_on.
  split; do 2 f_equal; apply list_filter_iff; intros target;
    rewrite (signed_difference_swap self solution) by done; lia.
Qed.

Lemma up_on_Permutation ks ks' self solution :
  ks ≡ₚ ks' →
  up_on ks self solution = up_on ks' self solution ∧
  down_on ks self solution = down_on ks' self solution.
Proof. intros Hperm. unfold up_on, down_on. by rewrite Hperm. Qed.

Lemma up_down_bound ks self solution :
  0 ≤ up_on ks self solution ∧ 0 ≤ down_on ks self solution ∧
  up_on ks self solution + down_on ks self solution ≤ Z.of_nat (length ks).
Proof.
  unfold up_on, down_on. split_and!; [lia..|].
  induction ks as [|k ks IH]; [done|].
  rewrite !filter_cons. repeat case_decide; simpl length; lia.
Qed.

Lemma mapM_length {A B} (f : A → result B) xs ys :
  mapM f xs = Ok ys → length ys = length xs.
Proof.
  revert ys. induction xs as [|x xs IH]; intros ys; simpl.
  - by intros [= <-].
  - destruct (f x) as [y|]; simpl; [|done].
    destruct (mapM f xs) as [ys'|]; simpl; [|done].
    intros [= <-]. simpl. f_equal. by apply IH.
Qed.

Lemma count_bound (ds : list Z) :
  0 ≤ count_positive ds ∧ 0 ≤ count_negative ds ∧
  count_positive ds + count_negative ds ≤ Z.of_nat (length ds).
Proof.
  unfold count_positive, count_negative. split_and!; [lia..|].
  induction ds as [|d ds IH]; [done|].
  rewrite !filter_cons. repeat case_decide; simpl length; lia.
Qed.

End comparison_outcomes.

(** X8: for an object of the class, [comparedTo] returns a value exactly
    when every item of its [targets] is an item of the other's [targets]
    and the two [fitness] dicts have the same keys; on every other pair it
    raises. *)
Theorem X8_comparedTo_returns_iff (self solution : Solution.t) :
  Solution.reachable self →
  (∃ c, Solution.comparedTo self solution = Ok c) ↔
  Solution.targets self ⊆ Solution.targets solution ∧
  dom (Solution.fitness self) = dom (Solution.fitness solution).
Proof.
  intros Hdeclared%reachable_fitness_declared. split.
  - intros [c Hc].
    destruct (decide (Solution.targets self ⊆ Solution.targets solution))
      as [Hsub|Hsub]; [|by rewrite comparedTo_targets_refused in Hc].
    split; [done|].
    destruct (decide (size (Solution.fitness self)
                      = size (Solution.fitness solution))) as [Hsize|Hsize];
      [|by rewrite comparedTo_count_mismatch in Hc].
    destruct (decide (dom (Solution.fitness self)
                      = dom (Solution.fitness solution))) as [Hdom|Hdom];
      [done|by rewrite comparedTo_key_mismatch in Hc].
  - intros [Hsub Hdom]. eexists. by apply comparedTo_recorded.
Qed.

Lemma X8_comparedTo_returns_iff_witness :
  let targets : gmap string Z := {[ "p"%string := 1; "q"%string := -1 ]} in
  let x := (Solution.set_fitness (Solution.__init__ targets []) "p" 3).2 in
  let y := (Solution.set_fitness (Solution.__init__ targets ["w"%string]) "p" 8).2 in
  ∃ c, Solution.comparedTo x y = Ok c.
Proof.
  intros targets x y. apply (X8_comparedTo_returns_iff x y).
  - apply Solution.reachable_set_fitness, Solution.reachable_init.
  - split; [reflexivity|]. vm_compute. reflexivity.
Defined.

(** X9: [comparedTo] raises the not-comparable error exactly when some
    item of [self.targets] is missing from [solution.targets] or the two
    [fitness] dicts differ in size; and whatever [comparedTo] raises, each
    of the five relational operators raises too, instead of answering
    [False]. *)
Theorem X9_not_comparable_iff (self solution : Solution.t) :
  (Solution.comparedTo self solution = Raise NotComparable ↔
   ¬ Solution.targets self ⊆ Solution.targets solution ∨
   size (Solution.fitness self) ≠ size (Solution.fitness solution)) ∧
  (∀ e, Solution.comparedTo self solution = Raise e →
     Solution.__eq__ self solution = Raise e ∧
     Solution.__lt__ self solution = Raise e ∧
     Solution.__gt__ self solution = Raise e ∧
     Solution.__le__ self solution = Raise e ∧
     Solution.__ge__ self solution = Raise e).
Proof.
  split.
  - split.
    + intros Hraise.
      destruct (decide (Solution.targets self ⊆ Solution.targets solution))
        as [Hsub|Hsub]; [right|by left].
      intros Hsize. rewrite comparedTo_passes in Hraise by done.
      destruct (mapM _ _) as [ds|e] eqn:HmapM; simpl in Hraise; [done|].
      injection Hraise as ->.
      apply mapM_Raise_inv in HmapM as (target & _ & Hd).
      by apply difference_Raise in Hd.
    + intros [Hsub|Hsize].
      * by apply comparedTo_targets_refused.
      * destruct (decide (Solution.targets self ⊆ Solution.targets solution)).
        -- by apply comparedTo_count_mismatch.
        -- by apply comparedTo_targets_refused.
  - intros e He.
    unfold Solution.__eq__, Solution.__lt__, Solution.__gt__,
      Solution.__le__, Solution.__ge__. by rewrite He.
Qed.

Lemma X9_not_comparable_iff_witness :
  let x := Solution.__init__ {[ "p"%string := 1 ]} [] in
  let y := Solution.__init__ {[ "p"%string := -1 ]} [] in
  Solution.__eq__ x y = Raise NotComparable.
Proof.
  intros x y. destruct (X9_not_comparable_iff x y) as [Hiff Hops].
  apply Hops, Hiff. left. unfold x, y. rewrite !init_targets.
  intros Hsub. rewrite map_subseteq_spec in Hsub.
  specialize (Hsub "p"%string 1 eq_refl). vm_compute in Hsub. discriminate Hsub.
Defined.

(** X10: objects that are only partly evaluated can be compared: when
    every item of [self.targets] is an item of [solution.targets] and both
    record the same targets, [comparedTo] counts the positive and the
    negative signed differences over the recorded targets only. *)
Theorem X10_comparedTo_on_recorded_targets (self solution : Solution.t) :
  Solution.reachable self →
  Solution.targets self ⊆ Solution.targets solution →
  dom (Solution.fitness self) = dom (Solution.fitness solution) →
  Solution.comparedTo self solution
    = Ok (up_on (keys (Solution.fitness self)) self solution
          - down_on (keys (Solution.fitness self)) self solution).
Proof.
  intros Hdeclared%reachable_fitness_declared. by apply comparedTo_recorded.
Qed.

Lemma X10_comparedTo_on_recorded_targets_witness :
  let targets : gmap string Z := {[ "p"%string := 1; "q"%string := -1 ]} in
  let x := (Solution.set_fitness (Solution.__init__ targets []) "q" 3).2 in
  let y := (Solution.set_fitness (Solution.__init__ targets []) "q" 8).2 in
  Solution.comparedTo x y = Ok 1.
Proof.
  intros targets x y.
  rewrite (X10_comparedTo_on_recorded_targets x y).
  - by vm_compute.
  - apply Solution.reachable_set_fitness, Solution.reachable_init.
  - reflexivity.
  - vm_compute. reflexivity.
Defined.

Section comparison_order.
Import Solution.
Implicit Types (self solution : Solution.t) (target : string).

Lemma length_filter_agree {A} (P Q : A → Prop)
    `{!∀ x, Decision (P x), !∀ x, Decision (Q x)} (l : list A) :
  (∀ x, x ∈ l → P x ↔ Q x) → length (filter P l) = length (filter Q l).
Proof.
  induction l as [|x l IH]; intros Hagree; [done|].
  rewrite !filter_cons.
  assert (length (filter P l) = length (filter Q l)) as Hrest.
  { apply IH. intros y ?. apply Hagree. by right. }
  destruct (Hagree x) as [HPQ HQP]; [by left|].
  repeat case_decide; simpl; auto; tauto.
Qed.

Lemma length_filter_none {A} (P : A → Prop) `{!∀ x, Decision (P x)} (l : list A) :
  (∀ x, x ∈ l → ¬ P x) → length (filter P l) = 0%nat.
Proof.
  induction l as [|x l IH]; intros Hnone; [done|].
  rewrite filter_cons, decide_False by (apply Hnone; by left).
  apply IH. intros y ?. apply Hnone. by right.
Qed.

Lemma length_filter_some {A} (P : A → Prop) `{!∀ x, Decision (P x)} (l : list A) x :
  x ∈ l → P x → (0 < length (filter P l))%nat.
Proof.
  intros Hin HP.
  assert (x ∈ filter P l) as Hx by (by apply list_elem_of_filter).
  destruct (filter P l); [by apply elem_of_nil in Hx|simpl; lia].
Qed.

Lemma comparedTo_swap self solution :
  dom (fitness self) ⊆ dom (targets self) →
  dom (fitness solution) ⊆ dom (targets solution) →
  targets self = targets solution →
  comparedTo solution self = negated (comparedTo self solution).
Proof.
  intros Ha Hb Htargets.
  assert (targets self ⊆ targets solution) as Hab by (by rewrite Htargets).
  assert (targets solution ⊆ targets self) as Hba by (by rewrite Htargets).
  destruct (decide (size (fitness self) = size (fitness solution)))
    as [Hsize|Hsize].
  - destruct (decide (dom (fitness self) = dom (fitness solution)))
      as [Hdom|Hdom].
    + rewrite (comparedTo_recorded self solution),
        (comparedTo_recorded solution self) by done.
      simpl. f_equal.
      destruct (up_on_swap (keys (fitness solution)) self solution Htargets)
        as [-> ->].
      destruct (up_on_Permutation (keys (fitness self)) (keys (fitness solution))
                  self solution) as [-> ->]; [by apply keys_Permutation|].
      lia.
    + rewrite (comparedTo_key_mismatch self solution),
        (comparedTo_key_mismatch solution self) by done.
      done.
  - rewrite (comparedTo_count_mismatch self solution),
      (comparedTo_count_mismatch solution self) by done.
    done.
Qed.

Lemma reachable_set_fitness_calls self calls :
  reachable self → reachable (set_fitness_calls self calls).
Proof.
  revert self. induction calls as [|c calls IH]; intros self Hreach; [done|].
  simpl. by apply IH, reachable_set_fitness.
Qed.

Lemma for_each_Ok_inv {A} (body : A → result unit) xs x :
  for_each body xs = Ok () → x ∈ xs → body x = Ok ().
Proof.
  induction xs as [|y xs IH]; intros Hrun Hin.
  - by apply elem_of_nil in Hin.
  - simpl in Hrun. destruct (body y) as [[]|e] eqn:Hy; simpl in Hrun; [|done].
    apply elem_of_cons in Hin as [->|Hin]; [done|by apply IH].
Qed.

Lemma problem_init_Ok_inv {Data Kwargs} (data : Data) (kwargs : Kwargs)
    (tgts : gmap string Z) verbose (p : Problem.t Data Kwargs) :
  Problem.__init__ data tgts verbose kwargs = Ok p →
  Problem.targets p = tgts ∧
  ∀ name d, tgts !! name = Some d → d = 1 ∨ d = -1.
Proof.
  unfold Problem.__init__.
  destruct (for_each _ _) as [[]|e] eqn:Hloop; simpl; [|done].
  intros [= <-]. split; [done|]. intros name d Hd.
  assert (Problem.check_target tgts name = Ok ()) as Hcheck.
  { apply (for_each_Ok_inv _ _ _ Hloop), elem_of_keys, elem_of_dom. by exists d. }
  rewrite (check_target_cases _ _ _ Hd) in Hcheck.
  by case_bool_decide.
Qed.

End comparison_order.

(** X11: between two objects of the class with the same [targets],
    swapping the sides negates the result of [comparedTo], or raises the
    same error; hence [a < b] answers as [b > a], [a <= b] as [b >= a], and
    [==] does not depend on the side. *)
Theorem X11_comparison_mirrors (a b : Solution.t) :
  Solution.reachable a → Solution.reachable b →
  Solution.targets a = Solution.targets b →
  Solution.comparedTo b a = negated (Solution.comparedTo a b) ∧
  Solution.__lt__ a b = Solution.__gt__ b a ∧
  Solution.__gt__ a b = Solution.__lt__ b a ∧
  Solution.__le__ a b = Solution.__ge__ b a ∧
  Solution.__ge__ a b = Solution.__le__ b a ∧
  Solution.__eq__ a b = Solution.__eq__ b a.
Proof.
  intros Ha%reachable_fitness_declared Hb%reachable_fitness_declared Htargets.
  pose proof (comparedTo_swap a b Ha Hb Htargets) as Hswap.
  split; [done|].
  unfold Solution.__eq__, Solution.__lt__, Solution.__gt__,
    Solution.__le__, Solution.__ge__. rewrite Hswap.
  destruct (Solution.comparedTo a b) as [c|e]; simpl; [|done].
  split_and!; repeat case_bool_decide; try done; lia.
Qed.

Lemma X11_comparison_mirrors_witness :
  let targets : gmap string Z := {[ "p"%string := 1; "q"%string := -1 ]} in
  let x := Solution.set_fitness_calls (Solution.__init__ targets [])
             [("p"%string, 10); ("q"%string, 5)] in
  let y := Solution.set_fitness_calls (Solution.__init__ targets [])
             [("p"%string, 8); ("q"%string, 5)] in
  Solution.comparedTo x y = Ok 1 ∧ Solution.comparedTo y x = Ok (-1).
Proof.
  intros targets x y.
  assert (Solution.comparedTo x y = Ok 1) as Hxy by (by vm_compute).
  split; [exact Hxy|].
  destruct (X11_comparison_mirrors x y) as [-> _].
  - apply reachable_set_fitness_calls, Solution.reachable_init.
  - apply reachable_set_fitness_calls, Solution.reachable_init.
  - reflexivity.
  - by rewrite Hxy.
Defined.

(** X12: a value returned by [comparedTo] lies between minus and plus the
    number of fitness values recorded on [self]. *)
Theorem X12_comparedTo_bounded (self solution : Solution.t) (c : Z) :
  Solution.comparedTo self solution = Ok c →
  - Z.of_nat (size (Solution.fitness self)) ≤ c ≤
    Z.of_nat (size (Solution.fitness self)).
Proof.
  unfold Solution.comparedTo. repeat case_bool_decide; try done.
  destruct (mapM _ _) as [ds|e] eqn:HmapM; simpl; [|done].
  intros [= <-]. apply mapM_length in HmapM.
  rewrite length_keys in HmapM. rewrite <- HmapM.
  pose proof (count_bound ds). lia.
Qed.

Lemma X12_comparedTo_bounded_witness :
  let targets : gmap string Z := {[ "p"%string := 1; "q"%string := -1 ]} in
  let x := Solution.set_fitness_calls (Solution.__init__ targets [])
             [("p"%string, 10); ("q"%string, 5)] in
  let y := Solution.set_fitness_calls (Solution.__init__ targets [])
             [("p"%string, 8); ("q"%string, 7)] in
  - Z.of_nat (size (Solution.fitness x)) ≤ 2 ≤ Z.of_nat (size (Solution.fitness x)).
Proof.
  intros targets x y. apply (X12_comparedTo_bounded x y 2). by vm_compute.
Defined.

(** X13: [comparedTo] and [==] look at [targets] and [fitness] only: an
    object of the class compared with one that has the same [targets] and
    the same [fitness], whatever its encoded values, gives 0 and [==]
    answers true.  In particular every object of the class equals
    itself. *)
Theorem X13_same_record_compares_equal (self solution : Solution.t) :
  Solution.reachable self →
  Solution.targets self = Solution.targets solution →
  Solution.fitness self = Solution.fitness solution →
  Solution.comparedTo self solution = Ok 0 ∧
  Solution.__eq__ self solution = Ok true.
Proof.
  intros Hdeclared%reachable_fitness_declared Htargets Hfitness.
  assert (Solution.comparedTo self solution = Ok 0) as Hzero.
  { rewrite comparedTo_recorded;
      [|done|by rewrite Htargets|by rewrite Hfitness].
    unfold up_on, down_on.
    rewrite !length_filter_none; [done|..];
      intros target _; unfold signed_difference; rewrite Hfitness; lia. }
  split; [done|]. unfold Solution.__eq__. by rewrite Hzero.
Qed.

Lemma X13_same_record_compares_equal_witness :
  let targets : gmap string Z := {[ "p"%string := 1 ]} in
  let x := (Solution.set_fitness (Solution.__init__ targets ["w"%string]) "p" 3).2 in
  Solution.__eq__ x (Solution.set_encoded x "w" (Some 5)) = Ok true.
Proof.
  intros targets x.
  apply (X13_same_record_compares_equal x (Solution.set_encoded x "w" (Some 5))).
  - apply Solution.reachable_set_fitness, Solution.reachable_init.
  - reflexivity.
  - reflexivity.
Defined.

(** X14: dominance is respected: when [self] is nowhere worse than
    [solution] on the recorded targets (signed difference never negative)
    and better on at least one, [comparedTo] returns a positive value and
    [self > solution] answers true. *)
Theorem X14_dominance_gives_greater (self solution : Solution.t) (target : string) :
  Solution.reachable self →
  Solution.targets self ⊆ Solution.targets solution →
  dom (Solution.fitness self) = dom (Solution.fitness solution) →
  (∀ t, t ∈ dom (Solution.fitness self) → 0 ≤ signed_difference self solution t) →
  target ∈ dom (Solution.fitness self) →
  0 < signed_difference self solution target →
  (∃ c, Solution.comparedTo self solution = Ok c ∧ 0 < c) ∧
  Solution.__gt__ self solution = Ok true.
Proof.
  intros Hdeclared%reachable_fitness_declared Hsub Hdom Hall Hin Hbetter.
  pose proof (comparedTo_recorded self solution Hdeclared Hsub Hdom) as Hvalue.
  assert (0 < up_on (keys (Solution.fitness self)) self solution
              - down_on (keys (Solution.fitness self)) self solution) as Hpos.
  { unfold up_on, down_on.
    rewrite (length_filter_none (λ t, signed_difference self solution t < 0)).
    - pose proof (length_filter_some
        (λ t, 0 < signed_difference self solution t)
        (keys (Solution.fitness self)) target) as Hsome.
      rewrite elem_of_keys in Hsome. specialize (Hsome Hin Hbetter). lia.
    - intros t Ht%elem_of_keys. specialize (Hall t Ht). lia. }
  split; [eauto|].
  unfold Solution.__gt__. rewrite Hvalue. simpl.
  by rewrite bool_decide_eq_true_2 by lia.
Qed.

Lemma X14_dominance_gives_greater_witness :
  let targets : gmap string Z := {[ "p"%string := -1 ]} in
  let x := (Solution.set_fitness (Solution.__init__ targets []) "p" 3).2 in
  let y := (Solution.set_fitness (Solution.__init__ targets []) "p" 8).2 in
  Solution.__gt__ x y = Ok true.
Proof.
  intros targets x y. apply (X14_dominance_gives_greater x y "p").
  - apply Solution.reachable_set_fitness, Solution.reachable_init.
  - reflexivity.
  - vm_compute. reflexivity.
  - intros t. assert (dom (Solution.fitness x) = {[ "p"%string ]}) as ->
      by (vm_compute; reflexivity).
    intros ->%elem_of_singleton. by vm_compute.
  - assert (dom (Solution.fitness x) = {[ "p"%string ]}) as ->
      by (vm_compute; reflexivity).
    by apply elem_of_singleton.
  - by vm_compute.
Defined.

(** X15: with a [targets] mapping accepted by the constructor of
    [Problem], [comparedTo] between two evaluated objects of the class on
    these targets is the number of targets where [a] does better (larger
    under direction 1, smaller under direction -1) minus the number where
    [b] does better. *)
Theorem X15_comparedTo_under_validated_directions {Data Kwargs : Type}
    (data : Data) (kwargs : Kwargs) (verbose : Z) (targets : gmap string Z)
    (p : Problem.t Data Kwargs) (a b : Solution.t) :
  Problem.__init__ data targets verbose kwargs = Ok p →
  Solution.reachable a → Solution.reachable b →
  Solution.targets a = Problem.targets p →
  Solution.targets b = Problem.targets p →
  Solution.is_evaluated a = true → Solution.is_evaluated b = true →
  Solution.comparedTo a b = Ok (wins a b - wins b a).
Proof.
  intros [Hp Hdirs]%problem_init_Ok_inv
    Ha%reachable_fitness_declared Hb%reachable_fitness_declared
    Hta Htb Hea%is_evaluated_spec Heb%is_evaluated_spec.
  rewrite Hp in Hta, Htb.
  assert (dom (Solution.fitness a) = dom (Solution.targets a)) as Hdoma
    by (by apply leibniz_equiv, (anti_symm _)).
  assert (dom (Solution.fitness b) = dom (Solution.targets a)) as Hdomb.
  { rewrite Hta, <- Htb. by apply leibniz_equiv, (anti_symm _). }
  rewrite comparedTo_recorded;
    [|done|by rewrite Hta, Htb|by rewrite Hdoma, Hdomb].
  destruct (up_on_Permutation (keys (Solution.fitness a))
              (keys (Solution.targets a)) a b) as [-> ->];
    [by apply keys_Permutation|].
  unfold up_on, down_on, wins. rewrite Htb, <- Hta.
  do 2 f_equal; f_equal; apply length_filter_agree;
    intros target [d Hd]%elem_of_keys%elem_of_dom;
    unfold beats, signed_difference;
    rewrite ?Htb, <- ?Hta, (lookup_total_correct _ _ _ Hd);
    (destruct (Hdirs target d) as [-> | ->]; [by rewrite <- Hta|lia|lia]).
Qed.

Lemma X15_comparedTo_under_validated_directions_witness :
  let targets : gmap string Z := {[ "p"%string := 1; "q"%string := -1 ]} in
  let x := Solution.set_fitness_calls (Solution.__init__ targets [])
             [("p"%string, 10); ("q"%string, 5)] in
  let y := Solution.set_fitness_calls (Solution.__init__ targets [])
             [("p"%string, 8); ("q"%string, 7)] in
  Solution.comparedTo x y = Ok (wins x y - wins y x) ∧
  wins x y = 2 ∧ wins y x = 0.
Proof.
  intros targets x y. split; [|by vm_compute].
  apply (X15_comparedTo_under_validated_directions () () 0 targets
           (Problem.mk targets () () 0) x y).
  - by vm_compute.
  - apply reachable_set_fitness_calls, Solution.reachable_init.
  - apply reachable_set_fitness_calls, Solution.reachable_init.
  - reflexivity.
  - reflexivity.
  - reflexivity.
  - reflexivity.
Defined.

(** X16: the order given by the operators is not transitive: there are
    evaluated objects of the class on the same three targets with [a < b]
    and [b < c] true and [a < c] false. *)
Theorem X16_less_than_not_transitive :
  ¬ (∀ a b c : Solution.t,
       Solution.reachable a → Solution.reachable b → Solution.reachable c →
       Solution.targets a = Solution.targets b →
       Solution.targets b = Solution.targets c →
       Solution.is_evaluated a = true → Solution.is_evaluated b = true →
       Solution.is_evaluated c = true →
       Solution.__lt__ a b = Ok true → Solution.__lt__ b c = Ok true →
       Solution.__lt__ a c = Ok true).
Proof.
  intros Htrans.
  pose (targets := ({[ "t1"%string := 1; "t2"%string := 1; "t3"%string := 1 ]}
                    : gmap string Z)).
  pose (a := Solution.set_fitness_calls (Solution.__init__ targets [])
               [("t1"%string, 3); ("t2"%string, 2); ("t3"%string, 1)]).
  pose (b := Solution.set_fitness_calls (Solution.__init__ targets [])
               [("t1"%string, 1); ("t2"%string, 3); ("t3"%string, 2)]).
  pose (c := Solution.set_fitness_calls (Solution.__init__ targets [])
               [("t1"%string, 2); ("t2"%string, 1); ("t3"%string, 3)]).
  assert (Solution.__lt__ a c = Ok true) as Hac.
  { apply (Htrans a b c);
      try (apply reachable_set_fitness_calls, Solution.reachable_init);
      by vm_compute. }
  vm_compute in Hac. discriminate Hac.
Qed.
